(** * LampControlEsp8266: the light debounce controller

    A shallow embedding of [src/LampControlEsp8266.cpp]: the module-level
    variables of the sketch, the two relay commands, [updateLightValue],
    [checkSwitchConditions] and [setup], followed by the properties of the
    debounce state machine.

    The sketch keeps its state in globals and its functions are [void]; here
    every function takes the machine state and returns the new one.  The
    configuration portal (IotWebConf), the web server and the serial port do
    not touch the variables below; of the portal only the two setting values
    are read, and they are constant between two restarts. *)

From Stdlib Require Import ZArith List Bool Lia.
Import ListNotations.
Local Open Scope Z_scope.

(** ** The C [int] of the target (32 bits, two's complement) *)

Module CInt.
Definition INT_MIN : Z := -2147483648.
Definition INT_MAX : Z := 2147483647.

Definition in_range (z : Z) : Prop := INT_MIN <= z <= INT_MAX.

(** The value an [int] holds after an operation whose exact result is [z]:
    an overflow wraps around, as the target's arithmetic does.  The counter
    is the only variable the sketch computes with, and the properties below
    show that it never gets near the ends of the range. *)
Definition wrap (z : Z) : Z := (z + 2147483648) mod 4294967296 - 2147483648.

Definition add (a b : Z) : Z := wrap (a + b).
End CInt.

(** ** Hardware: the two output pins, the analog input, the software timer *)

Inductive Pin : Type := D5 | D8.
Inductive Level : Type := LOW | HIGH.
Inductive Mode : Type := INPUT | OUTPUT.

(** The only callback the sketch hands to the timer. *)
Inductive Handler : Type := CheckSwitchConditions.

Definition Pin_eqb (p q : Pin) : bool :=
  match p, q with
  | D5, D5 | D8, D8 => true
  | _, _ => false
  end.

(** ** Settings

    [settingDelayParam] and [settingDarkLevelParam] are [int16_t] parameters
    built with [min(1)], [max(100)]; the fields hold what [.value()] returns. *)

Record Config : Type := mkConfig {
  settingDelayParam : Z;
  settingDarkLevelParam : Z
}.

Definition INT16_MIN : Z := -32768.
Definition INT16_MAX : Z := 32767.

(** What the type [int16_t] alone guarantees. *)
Definition config_typed (cfg : Config) : Prop :=
  INT16_MIN <= settingDelayParam cfg <= INT16_MAX /\
  INT16_MIN <= settingDarkLevelParam cfg <= INT16_MAX.

(** What the portal accepts: both settings in 1..100. *)
Definition valid_config (cfg : Config) : Prop :=
  1 <= settingDelayParam cfg <= 100 /\
  1 <= settingDarkLevelParam cfg <= 100.

Definition valid_configb (cfg : Config) : bool :=
  (1 <=? settingDelayParam cfg) && (settingDelayParam cfg <=? 100) &&
  (1 <=? settingDarkLevelParam cfg) && (settingDarkLevelParam cfg <=? 100).

(** ** Machine state *)

Record Machine : Type := mkMachine {
  (* int relayState = 0;  0 = off, 1 = on *)
  relayState : Z;
  (* bool lightConditionDark = false; *)
  lightConditionDark : bool;
  (* int lightLevel = 1023; *)
  lightLevel : Z;
  (* int currLightConditionCycles = 0; *)
  currLightConditionCycles : Z;
  (* direction and output level of the digital pins *)
  pinModes : Pin -> Mode;
  pinLevels : Pin -> Level;
  (* the sample the converter on A0 delivers to the next analogRead *)
  adcA0 : Z;
  (* tasks registered with the timer: period in ms, callback *)
  timerTasks : list (Z * Handler)
}.

Definition set_relayState (v : Z) (m : Machine) : Machine :=
  mkMachine v (lightConditionDark m) (lightLevel m) (currLightConditionCycles m)
            (pinModes m) (pinLevels m) (adcA0 m) (timerTasks m).

Definition set_lightConditionDark (v : bool) (m : Machine) : Machine :=
  mkMachine (relayState m) v (lightLevel m) (currLightConditionCycles m)
            (pinModes m) (pinLevels m) (adcA0 m) (timerTasks m).

Definition set_lightLevel (v : Z) (m : Machine) : Machine :=
  mkMachine (relayState m) (lightConditionDark m) v (currLightConditionCycles m)
            (pinModes m) (pinLevels m) (adcA0 m) (timerTasks m).

Definition set_currLightConditionCycles (v : Z) (m : Machine) : Machine :=
  mkMachine (relayState m) (lightConditionDark m) (lightLevel m) v
            (pinModes m) (pinLevels m) (adcA0 m) (timerTasks m).

Definition set_pinModes (v : Pin -> Mode) (m : Machine) : Machine :=
  mkMachine (relayState m) (lightConditionDark m) (lightLevel m)
            (currLightConditionCycles m) v (pinLevels m) (adcA0 m) (timerTasks m).

Definition set_pinLevels (v : Pin -> Level) (m : Machine) : Machine :=
  mkMachine (relayState m) (lightConditionDark m) (lightLevel m)
            (currLightConditionCycles m) (pinModes m) v (adcA0 m) (timerTasks m).

Definition set_adcA0 (v : Z) (m : Machine) : Machine :=
  mkMachine (relayState m) (lightConditionDark m) (lightLevel m)
            (currLightConditionCycles m) (pinModes m) (pinLevels m) v (timerTasks m).

Definition set_timerTasks (v : list (Z * Handler)) (m : Machine) : Machine :=
  mkMachine (relayState m) (lightConditionDark m) (lightLevel m)
            (currLightConditionCycles m) (pinModes m) (pinLevels m) (adcA0 m) v.

(** ** Arduino primitives the sketch calls *)

Definition pinMode (p : Pin) (md : Mode) (m : Machine) : Machine :=
  set_pinModes (fun q => if Pin_eqb q p then md else pinModes m q) m.

Definition digitalWrite (p : Pin) (v : Level) (m : Machine) : Machine :=
  set_pinLevels (fun q => if Pin_eqb q p then v else pinLevels m q) m.

Definition analogRead_A0 (m : Machine) : Z := adcA0 m.

(** [timer.every(interval, handler)]: one more periodic task. *)
Definition timer_every (interval : Z) (h : Handler) (m : Machine) : Machine :=
  set_timerTasks (timerTasks m ++ [(interval, h)]) m.

(** ** The relay *)

(* void switchRelayOn() *)
Definition switchRelayOn (m : Machine) : Machine :=
  let m := digitalWrite D5 LOW m in    (* Relay on *)
  let m := digitalWrite D8 HIGH m in   (* LED on *)
  set_relayState 1 m.

(* void switchRelayOff() *)
Definition switchRelayOff (m : Machine) : Machine :=
  let m := digitalWrite D5 HIGH m in   (* Relay off *)
  let m := digitalWrite D8 LOW m in    (* LED off *)
  set_relayState 0 m.

(** The relay as [checkSwitchConditions] reads it: off is [relayState == 0],
    everything else takes the "light on" branch. *)
Definition relayOn (m : Machine) : bool := negb (relayState m =? 0).

(** ** The debounce step *)

(** Lines 164-171 of the sketch: the classification of a light level. *)
Definition newLightConditionDark (cfg : Config) (level : Z) : bool :=
  let darkLevelSetting := settingDarkLevelParam cfg in
  if level <=? darkLevelSetting then true else false.

(* void updateLightValue() *)
Definition updateLightValue (cfg : Config) (m : Machine) : Machine :=
  let m := set_lightLevel (analogRead_A0 m) m in
  let newDark := newLightConditionDark cfg (lightLevel m) in
  (* remember time of current light state to prevent relay toggling *)
  let m :=
    if Bool.eqb newDark (lightConditionDark m)
    then set_currLightConditionCycles (CInt.add (currLightConditionCycles m) 1) m
    else set_currLightConditionCycles 0 m in
  let m := set_lightConditionDark newDark m in
  (* prevent int overflow *)
  let cyclesRequiredForRelayChange := settingDelayParam cfg in
  if currLightConditionCycles m >? cyclesRequiredForRelayChange
  then set_currLightConditionCycles cyclesRequiredForRelayChange m
  else m.

(* bool checkSwitchConditions(void *argument); the debug string
   switchConditionInfo is only displayed and is left out. *)
Definition checkSwitchConditions (cfg : Config) (m : Machine) : Machine * bool :=
  (* read sensor *)
  let m := updateLightValue cfg m in
  (* check if switch on/off is required *)
  let cyclesRequiredForRelayChange := settingDelayParam cfg in
  let switchAllowedByTime := currLightConditionCycles m >=? cyclesRequiredForRelayChange in
  let m :=
    if relayState m =? 0
    then (* light off - turn on? *)
      if lightConditionDark m && switchAllowedByTime then switchRelayOn m else m
    else (* light on - turn off? *)
      if negb (lightConditionDark m) && switchAllowedByTime then switchRelayOff m else m in
  (* keep timer running *)
  (m, true).

(** The counter [updateLightValue] leaves, from the counter [c] it finds;
    [same] says whether the classification is the one already held. *)
Definition next_cycles (cfg : Config) (same : bool) (c : Z) : Z :=
  let c1 := if same then CInt.add c 1 else 0 in
  if c1 >? settingDelayParam cfg then settingDelayParam cfg else c1.

(** ** Start-up *)

(** The variables as their initialisers leave them when the chip starts, over
    whatever the pins and the converter are doing at that moment. *)
Definition power_on (modes : Pin -> Mode) (levels : Pin -> Level) (a0 : Z) : Machine :=
  mkMachine 0 false 1023 0 modes levels a0 [].

(* void setup(): the calls that reach the state above, in their order *)
Definition setup (m : Machine) : Machine :=
  (* PIN init *)
  let m := pinMode D5 OUTPUT m in
  let m := pinMode D8 OUTPUT m in
  (* turn relay off on start *)
  let m := switchRelayOff m in
  (* check light condition every second *)
  timer_every 1000 CheckSwitchConditions m.

(** ** The timer firing *)

Definition call_handler (cfg : Config) (h : Handler) (m : Machine) : Machine * bool :=
  match h with
  | CheckSwitchConditions => checkSwitchConditions cfg m
  end.

(** [timer.tick()] at a moment when the period of every task has elapsed:
    each callback runs once, and a task stays registered when its callback
    returns [true]. *)
Fixpoint run_due_tasks (cfg : Config) (tasks : list (Z * Handler)) (m : Machine)
  : Machine * list (Z * Handler) :=
  match tasks with
  | [] => (m, [])
  | (interval, h) :: rest =>
      let '(m1, again) := call_handler cfg h m in
      let '(m2, kept) := run_due_tasks cfg rest m1 in
      (m2, if again then (interval, h) :: kept else kept)
  end.

Definition timer_tick_due (cfg : Config) (m : Machine) : Machine :=
  let '(m', kept) := run_due_tasks cfg (timerTasks m) m in
  set_timerTasks kept m'.

(** ** Runs *)

(** The environment puts a new sample on A0. *)
Definition sense (sample : Z) (m : Machine) : Machine := set_adcA0 sample m.

(** One tick: the sample is on the pin and the callback runs. *)
Definition tick (cfg : Config) (sample : Z) (m : Machine) : Machine :=
  fst (checkSwitchConditions cfg (sense sample m)).

Fixpoint run (cfg : Config) (m : Machine) (samples : list Z) : Machine :=
  match samples with
  | [] => m
  | r :: rest => run cfg (tick cfg r m) rest
  end.

(** The states after tick 1, tick 2, ... *)
Fixpoint trace (cfg : Config) (m : Machine) (samples : list Z) : list Machine :=
  match samples with
  | [] => []
  | r :: rest => let m' := tick cfg r m in m' :: trace cfg m' rest
  end.

(** The counter is within its bounds. *)
Definition cycles_ok (cfg : Config) (m : Machine) : Prop :=
  0 <= currLightConditionCycles m <= settingDelayParam cfg.

(** All samples of a window classify alike. *)
Definition steady (cfg : Config) (d : bool) (samples : list Z) : Prop :=
  Forall (fun r => newLightConditionDark cfg r = d) samples.

Definition steadyb (cfg : Config) (d : bool) (samples : list Z) : bool :=
  forallb (fun r => Bool.eqb (newLightConditionDark cfg r) d) samples.

(** Every sample classifies unlike the classification held before it;
    [prev] is the classification before the first sample. *)
Fixpoint flipsEveryTick (cfg : Config) (prev : bool) (samples : list Z) : bool :=
  match samples with
  | [] => true
  | r :: rest =>
      let d := newLightConditionDark cfg r in
      negb (Bool.eqb d prev) && flipsEveryTick cfg d rest
  end.

(** The relay is where [m0] had it. *)
Definition relay_as_in (m0 m : Machine) : Prop := relayState m = relayState m0.

(** A bench set-up for the scenarios: threshold 25, delay 3, pins floating
    low in input mode, a bright sample on the converter. *)
Definition cfgA : Config := mkConfig 3 25.

Definition bench : Machine :=
  power_on (fun _ => INPUT) (fun _ => LOW) 1023.


(** ** Notions for the properties of the relay, the pins and the timer *)

(** The output pins show the relay variable: D5 drives the relay (active
    low), D8 the LED. *)
Definition pins_mirror_relay (m : Machine) : Prop :=
  (relayState m = 0 /\ pinLevels m D5 = HIGH /\ pinLevels m D8 = LOW) \/
  (relayState m = 1 /\ pinLevels m D5 = LOW /\ pinLevels m D8 = HIGH).

(** Two states that agree on everything the controller acts on: all but the
    stored raw sample and the value on the converter.  Pins are compared pin
    by pin. *)
Definition same_control (m1 m2 : Machine) : Prop :=
  relayState m1 = relayState m2 /\
  lightConditionDark m1 = lightConditionDark m2 /\
  currLightConditionCycles m1 = currLightConditionCycles m2 /\
  (forall p, pinModes m1 p = pinModes m2 p) /\
  (forall p, pinLevels m1 p = pinLevels m2 p) /\
  timerTasks m1 = timerTasks m2.

(** Two states no reader can tell apart. *)
Definition same_machine (m1 m2 : Machine) : Prop :=
  same_control m1 m2 /\ lightLevel m1 = lightLevel m2 /\ adcA0 m1 = adcA0 m2.

(** How many of the most recent entries of [past] (latest first) are [d]. *)
Fixpoint streak (d : bool) (past : list bool) : nat :=
  match past with
  | [] => O
  | x :: older => if Bool.eqb x d then S (streak d older) else O
  end.

(** The classifications a run sees, latest first, ending with the [false]
    the variable [lightConditionDark] is initialised with. *)
Definition history (cfg : Config) (samples : list Z) : list bool :=
  rev (map (newLightConditionDark cfg) samples) ++ [false].

(** The timer fires once per sample, each time with every period elapsed. *)
Fixpoint run_timer (cfg : Config) (m : Machine) (samples : list Z) : Machine :=
  match samples with
  | [] => m
  | r :: rest => run_timer cfg (timer_tick_due cfg (sense r m)) rest
  end.

(** In how many ticks of a run the relay variable changes. *)
Fixpoint relay_changes (cfg : Config) (m : Machine) (samples : list Z) : nat :=
  match samples with
  | [] => O
  | r :: rest =>
      let m' := tick cfg r m in
      let changed := if relayState m' =? relayState m then O else S O in
      (changed + relay_changes cfg m' rest)%nat
  end.

(** A lower bound on the ticks still needed before the relay can change:
    a full delay and one tick when the relay agrees with the classification,
    what the counter lacks otherwise. *)
Definition ticks_to_switch (cfg : Config) (m : Machine) : Z :=
  if Bool.eqb (relayOn m) (lightConditionDark m)
  then settingDelayParam cfg + 1
  else Z.max 1 (settingDelayParam cfg - currLightConditionCycles m).

(** * Properties *)

(** ** Arithmetic of [int] *)

Lemma wrap_in_range z : CInt.in_range z -> CInt.wrap z = z.
Proof.
  unfold CInt.in_range, CInt.INT_MIN, CInt.INT_MAX, CInt.wrap. intros Hz.
  rewrite Z.mod_small; lia.
Qed.

Lemma wrap_bounds z : CInt.INT_MIN <= CInt.wrap z <= CInt.INT_MAX.
Proof.
  unfold CInt.INT_MIN, CInt.INT_MAX, CInt.wrap.
  pose proof (Z.mod_pos_bound (z + 2147483648) 4294967296). lia.
Qed.

Lemma wrap_le z : CInt.INT_MIN <= z -> CInt.wrap z <= z.
Proof.
  unfold CInt.INT_MIN, CInt.wrap. intros Hz.
  pose proof (Z.mod_le (z + 2147483648) 4294967296). lia.
Qed.

Lemma add_one_exact c :
  CInt.INT_MIN <= c < CInt.INT_MAX -> CInt.add c 1 = c + 1.
Proof.
  intros Hc. unfold CInt.add. apply wrap_in_range.
  unfold CInt.in_range. lia.
Qed.

(** ** What [updateLightValue] does to each variable *)

Ltac split_update :=
  unfold updateLightValue, next_cycles, analogRead_A0; cbn;
  destruct (Bool.eqb _ _); cbn;
  match goal with |- context [if ?b then _ else _] => destruct b end;
  reflexivity.

Section Update.
Variable cfg : Config.

Lemma update_relayState m : relayState (updateLightValue cfg m) = relayState m.
Proof. split_update. Qed.

Lemma update_lightLevel m : lightLevel (updateLightValue cfg m) = adcA0 m.
Proof. split_update. Qed.

Lemma update_lightConditionDark m :
  lightConditionDark (updateLightValue cfg m) = newLightConditionDark cfg (adcA0 m).
Proof. split_update. Qed.

Lemma update_currLightConditionCycles m :
  currLightConditionCycles (updateLightValue cfg m) =
  next_cycles cfg
    (Bool.eqb (newLightConditionDark cfg (adcA0 m)) (lightConditionDark m))
    (currLightConditionCycles m).
Proof. split_update. Qed.

Lemma update_pinLevels m : pinLevels (updateLightValue cfg m) = pinLevels m.
Proof. split_update. Qed.

Lemma update_pinModes m : pinModes (updateLightValue cfg m) = pinModes m.
Proof. split_update. Qed.

Lemma update_timerTasks m : timerTasks (updateLightValue cfg m) = timerTasks m.
Proof. split_update. Qed.
End Update.

(** ** What one tick does to each variable *)

Ltac split_switch :=
  unfold tick, checkSwitchConditions; cbn [fst];
  repeat match goal with
         | |- context [if ?b then _ else _] => destruct b
         end; cbn;
  rewrite ?update_relayState, ?update_lightLevel, ?update_lightConditionDark,
    ?update_currLightConditionCycles, ?update_pinLevels, ?update_pinModes,
    ?update_timerTasks; try reflexivity.

Section Tick.
Variable cfg : Config.

Lemma tick_lightLevel r m : lightLevel (tick cfg r m) = r.
Proof. split_switch. Qed.

Lemma tick_lightConditionDark r m :
  lightConditionDark (tick cfg r m) = newLightConditionDark cfg r.
Proof. split_switch. Qed.

Lemma tick_currLightConditionCycles r m :
  currLightConditionCycles (tick cfg r m) =
  next_cycles cfg
    (Bool.eqb (newLightConditionDark cfg r) (lightConditionDark m))
    (currLightConditionCycles m).
Proof. split_switch. Qed.

Lemma tick_timerTasks r m : timerTasks (tick cfg r m) = timerTasks m.
Proof. split_switch. Qed.

Lemma tick_pinModes r m : pinModes (tick cfg r m) = pinModes m.
Proof. split_switch. Qed.

(** The relay after the tick, from the relay before it, the new
    classification and the counter the tick leaves. *)
Lemma tick_relayState r m :
  relayState (tick cfg r m) =
  if relayState m =? 0
  then if newLightConditionDark cfg r &&
          (currLightConditionCycles (tick cfg r m) >=? settingDelayParam cfg)
       then 1 else relayState m
  else if negb (newLightConditionDark cfg r) &&
          (currLightConditionCycles (tick cfg r m) >=? settingDelayParam cfg)
       then 0 else relayState m.
Proof.
  rewrite tick_currLightConditionCycles.
  unfold tick, checkSwitchConditions; cbn [fst].
  rewrite update_relayState, update_lightConditionDark,
    update_currLightConditionCycles.
  cbn [sense set_adcA0 relayState lightConditionDark currLightConditionCycles adcA0].
  destruct (relayState m =? 0);
    match goal with |- context [if ?b then _ else _] => destruct b end;
    cbn; rewrite ?update_relayState; reflexivity.
Qed.
End Tick.

(** When the relay variable is not changed, neither are the pins. *)
Lemma tick_pinLevels_kept cfg r m :
  relayState (tick cfg r m) = relayState m -> pinLevels (tick cfg r m) = pinLevels m.
Proof.
  unfold tick, checkSwitchConditions; cbn [fst].
  rewrite update_relayState.
  cbn [sense set_adcA0 relayState].
  destruct (relayState m =? 0) eqn:Hoff;
    match goal with |- context [if ?b then _ else _] => destruct b end;
    cbn; rewrite ?update_relayState, ?update_pinLevels; cbn;
    try reflexivity; intros H.
  - apply Z.eqb_eq in Hoff. congruence.
  - apply Z.eqb_neq in Hoff. congruence.
Qed.

Lemma set_timerTasks_same m : set_timerTasks (timerTasks m) m = m.
Proof. destruct m; reflexivity. Qed.

(** ** The counter *)

Lemma next_cycles_reset cfg c :
  0 <= settingDelayParam cfg -> next_cycles cfg false c = 0.
Proof.
  intros HN. unfold next_cycles.
  destruct (0 >? settingDelayParam cfg) eqn:E; [|reflexivity].
  apply Z.gtb_lt in E. lia.
Qed.

Lemma next_cycles_count cfg c :
  CInt.INT_MIN <= c < CInt.INT_MAX ->
  next_cycles cfg true c = Z.min (c + 1) (settingDelayParam cfg).
Proof.
  intros Hc. unfold next_cycles. rewrite add_one_exact by exact Hc.
  destruct (c + 1 >? settingDelayParam cfg) eqn:E.
  - apply Z.gtb_lt in E. lia.
  - rewrite Z.gtb_ltb in E. apply Z.ltb_ge in E. lia.
Qed.

Lemma tick_cycles_ok cfg r m :
  0 <= settingDelayParam cfg <= INT16_MAX ->
  cycles_ok cfg m -> cycles_ok cfg (tick cfg r m).
Proof.
  unfold cycles_ok, INT16_MAX. intros HN Hc.
  rewrite tick_currLightConditionCycles.
  destruct (Bool.eqb _ _).
  - rewrite next_cycles_count by (unfold CInt.INT_MIN, CInt.INT_MAX; lia). lia.
  - rewrite next_cycles_reset by lia. lia.
Qed.

Lemma trace_cycles_ok cfg samples :
  0 <= settingDelayParam cfg <= INT16_MAX ->
  forall m, cycles_ok cfg m -> Forall (cycles_ok cfg) (trace cfg m samples).
Proof.
  intros HN. induction samples as [|r rest IH]; intros m Hm; cbn.
  - constructor.
  - constructor.
    + apply tick_cycles_ok; assumption.
    + apply IH. apply tick_cycles_ok; assumption.
Qed.

Lemma valid_config_delay cfg :
  valid_config cfg -> 1 <= settingDelayParam cfg <= INT16_MAX.
Proof. unfold valid_config, INT16_MAX. lia. Qed.

(** C4. In one tick the counter becomes 0 when the sample classifies unlike
    the classification held from the previous tick; otherwise it becomes the
    old counter plus exactly one, cut down to the required delay.  The delay
    is not negative (the portal admits 1..100) and the counter is an [int]
    below [INT_MAX]. *)
Theorem counter_reset_or_increment cfg r m :
  0 <= settingDelayParam cfg ->
  CInt.INT_MIN <= currLightConditionCycles m < CInt.INT_MAX ->
  currLightConditionCycles (tick cfg r m) =
    if Bool.eqb (newLightConditionDark cfg r) (lightConditionDark m)
    then Z.min (currLightConditionCycles m + 1) (settingDelayParam cfg)
    else 0.
Proof.
  intros HN Hc. rewrite tick_currLightConditionCycles.
  destruct (Bool.eqb _ _).
  - apply next_cycles_count; exact Hc.
  - apply next_cycles_reset; exact HN.
Qed.

Lemma counter_reset_or_increment_witness :
  currLightConditionCycles (tick cfgA 10 (run cfgA (setup bench) [10; 10])) = 2 /\
  currLightConditionCycles (tick cfgA 30 (run cfgA (setup bench) [10; 10])) = 0.
Proof.
  split.
  - rewrite (counter_reset_or_increment cfgA 10 (run cfgA (setup bench) [10; 10]));
      [reflexivity | cbn; lia | vm_compute; split; [discriminate | reflexivity]].
  - rewrite (counter_reset_or_increment cfgA 30 (run cfgA (setup bench) [10; 10]));
      [reflexivity | cbn; lia | vm_compute; split; [discriminate | reflexivity]].
Defined.

(** C5. With both settings in 1..100 the counter stays within
    0..requiredStableTicks after every tick, whatever the samples are: in the
    run that starts after [setup], and in every run that starts from a state
    whose counter is within these bounds. *)
Theorem counter_bounded cfg :
  valid_config cfg ->
  (forall modes levels a0 samples,
      Forall (cycles_ok cfg) (trace cfg (setup (power_on modes levels a0)) samples)) /\
  (forall m samples,
      cycles_ok cfg m -> Forall (cycles_ok cfg) (trace cfg m samples)).
Proof.
  intros Hv. pose proof (valid_config_delay cfg Hv) as HN.
  assert (HN' : 0 <= settingDelayParam cfg <= INT16_MAX) by lia.
  split.
  - intros modes levels a0 samples. apply trace_cycles_ok; [exact HN'|].
    unfold cycles_ok. cbn. lia.
  - intros m samples Hm. apply trace_cycles_ok; assumption.
Qed.

Lemma cfgA_valid : valid_config cfgA.
Proof. unfold valid_config, cfgA; cbn; lia. Qed.

Lemma counter_bounded_witness :
  valid_config cfgA /\
  Forall (cycles_ok cfgA) (trace cfgA (setup bench) [30; 10; 10; 10; 10; 700]).
Proof.
  split.
  - exact cfgA_valid.
  - exact (proj1 (counter_bounded cfgA cfgA_valid) _ _ _ _).
Defined.

(** ** The relay *)

(** The three outcomes of the switching part of a tick. *)
Lemma tick_relay_cases cfg r m :
  let m' := tick cfg r m in
  (settingDelayParam cfg <= currLightConditionCycles m' /\
   lightConditionDark m' <> relayOn m /\
   relayState m' <> relayState m /\ relayOn m' = lightConditionDark m')
  \/
  (~ (settingDelayParam cfg <= currLightConditionCycles m' /\
      lightConditionDark m' <> relayOn m) /\
   relayState m' = relayState m).
Proof.
  cbv zeta.
  pose proof (tick_relayState cfg r m) as HR.
  pose proof (tick_lightConditionDark cfg r m) as HD.
  unfold relayOn.
  set (t := tick cfg r m) in *. clearbody t. rewrite HD. clear HD.
  destruct (currLightConditionCycles t >=? settingDelayParam cfg) eqn:Ha;
    [ apply Z.geb_le in Ha | rewrite Z.geb_leb in Ha; apply Z.leb_gt in Ha ];
    destruct (newLightConditionDark cfg r);
    destruct (relayState m =? 0) eqn:Hoff;
    pose proof Hoff as Hoff';
    [ apply Z.eqb_eq in Hoff' | apply Z.eqb_neq in Hoff'
    | apply Z.eqb_eq in Hoff' | apply Z.eqb_neq in Hoff'
    | apply Z.eqb_eq in Hoff' | apply Z.eqb_neq in Hoff'
    | apply Z.eqb_eq in Hoff' | apply Z.eqb_neq in Hoff' ];
    cbn in HR; rewrite HR; rewrite ?Hoff; cbn;
    first [ left; repeat split; (lia || congruence || discriminate)
          | right; split; [ intros [? ?]; (lia || congruence) | reflexivity ] ].
Qed.

(** C6. A tick changes the relay only when the counter it has just updated
    has reached the required delay and the new classification disagrees with
    the relay (dark with the relay off, bright with the relay on).  In every
    other case the relay variable and both output pins are as before; and
    when the two conditions hold the relay does change, to the side of the
    classification. *)
Theorem relay_changes_only_when_allowed cfg r m :
  (relayState (tick cfg r m) <> relayState m ->
     settingDelayParam cfg <= currLightConditionCycles (tick cfg r m) /\
     lightConditionDark (tick cfg r m) <> relayOn m) /\
  (~ (settingDelayParam cfg <= currLightConditionCycles (tick cfg r m) /\
      lightConditionDark (tick cfg r m) <> relayOn m) ->
     relayState (tick cfg r m) = relayState m /\
     pinLevels (tick cfg r m) = pinLevels m) /\
  (settingDelayParam cfg <= currLightConditionCycles (tick cfg r m) ->
   lightConditionDark (tick cfg r m) <> relayOn m ->
     relayState (tick cfg r m) <> relayState m /\
     relayOn (tick cfg r m) = lightConditionDark (tick cfg r m)).
Proof.
  destruct (tick_relay_cases cfg r m) as [(Ha & Hd & Hch & Hon) | (Hno & Hsame)].
  - split; [|split].
    + intros _. split; assumption.
    + intros Hn. exfalso. apply Hn. split; assumption.
    + intros _ _. split; assumption.
  - split; [|split].
    + intros Hch. contradiction.
    + intros _. split; [exact Hsame|]. apply tick_pinLevels_kept. exact Hsame.
    + intros Ha Hd. exfalso. apply Hno. split; assumption.
Qed.

Lemma relay_changes_only_when_allowed_witness :
  settingDelayParam cfgA
    <= currLightConditionCycles (tick cfgA 10 (run cfgA (setup bench) [10; 10; 10])) /\
  lightConditionDark (tick cfgA 10 (run cfgA (setup bench) [10; 10; 10]))
    <> relayOn (run cfgA (setup bench) [10; 10; 10]).
Proof.
  apply (proj1 (relay_changes_only_when_allowed cfgA 10
                  (run cfgA (setup bench) [10; 10; 10]))).
  vm_compute. discriminate.
Defined.

(** ** Classification *)

(** C8. A sample equal to the dark level is classified as dark; in general a
    tick classifies its sample [r] as dark exactly when
    [r <= darkLevelSetting]. *)
Theorem threshold_is_dark cfg m :
  lightConditionDark (tick cfg (settingDarkLevelParam cfg) m) = true /\
  (forall r, lightConditionDark (tick cfg r m) = (r <=? settingDarkLevelParam cfg)).
Proof.
  split.
  - rewrite tick_lightConditionDark. unfold newLightConditionDark.
    rewrite Z.leb_refl. reflexivity.
  - intros r. rewrite tick_lightConditionDark. unfold newLightConditionDark.
    destruct (r <=? settingDarkLevelParam cfg); reflexivity.
Qed.

(** ** Start-up *)

Lemma run_timerTasks cfg samples :
  forall m, timerTasks (run cfg m samples) = timerTasks m.
Proof.
  induction samples as [|r rest IH]; intros m; cbn; [reflexivity|].
  rewrite IH. apply tick_timerTasks.
Qed.

(** Once [setup] has run on the freshly started chip, every firing of the
    timer is one tick of the controller, and the task stays registered. *)
Lemma timer_tick_due_is_tick cfg modes levels a0 samples r :
  let m := run cfg (setup (power_on modes levels a0)) samples in
  timer_tick_due cfg (sense r m) = tick cfg r m.
Proof.
  cbv zeta. set (m := run cfg (setup (power_on modes levels a0)) samples).
  assert (Ht : timerTasks m = [(1000, CheckSwitchConditions)]).
  { unfold m. rewrite run_timerTasks. reflexivity. }
  unfold timer_tick_due. change (timerTasks (sense r m)) with (timerTasks m).
  rewrite Ht. cbn [run_due_tasks call_handler].
  unfold tick. destruct (checkSwitchConditions cfg (sense r m)) as [m' again] eqn:E.
  assert (again = true) by (unfold checkSwitchConditions in E; congruence).
  subst again. cbn [fst].
  assert (Hm' : m' = tick cfg r m) by (unfold tick; rewrite E; reflexivity).
  rewrite <- Ht, Hm', <- (tick_timerTasks cfg r m). apply set_timerTasks_same.
Qed.

(** C9. [setup] commands the relay off before it registers the periodic
    check: whatever the variables, the pins and the sensor held before,
    after [setup] the relay variable is 0, the relay pin D5 is HIGH (off) and
    the LED pin D8 is LOW.  No task is registered with the timer before
    [setup], so no tick can run earlier, and the first tick, whatever sample
    it finds on A0, starts with the relay off. *)
Theorem setup_forces_relay_off :
  (forall m,
      relayState (setup m) = 0 /\ relayOn (setup m) = false /\
      pinLevels (setup m) D5 = HIGH /\ pinLevels (setup m) D8 = LOW) /\
  (forall cfg modes levels a0,
      timer_tick_due cfg (power_on modes levels a0) = power_on modes levels a0 /\
      timerTasks (setup (power_on modes levels a0)) = [(1000, CheckSwitchConditions)]) /\
  (forall m sample,
      relayState (sense sample (setup m)) = 0 /\
      relayOn (sense sample (setup m)) = false).
Proof.
  split; [|split].
  - intros m. repeat split.
  - intros cfg modes levels a0. split; reflexivity.
  - intros m sample. split; reflexivity.
Qed.

(** ** Runs of ticks *)

Lemma relayOn_same_relayState m1 m2 :
  relayState m1 = relayState m2 -> relayOn m1 = relayOn m2.
Proof. unfold relayOn. intros ->. reflexivity. Qed.

(** A tick whose classification agrees with the relay leaves it alone. *)
Lemma tick_agreeing_keeps_relay cfg r m :
  newLightConditionDark cfg r = relayOn m ->
  relayState (tick cfg r m) = relayState m.
Proof.
  intros Hagree.
  destruct (tick_relay_cases cfg r m) as [(_ & Hd & _) | (_ & Hsame)].
  - rewrite tick_lightConditionDark in Hd. contradiction.
  - exact Hsame.
Qed.

(** A tick whose counter has not reached the delay leaves the relay alone. *)
Lemma tick_early_keeps_relay cfg r m :
  currLightConditionCycles (tick cfg r m) < settingDelayParam cfg ->
  relayState (tick cfg r m) = relayState m.
Proof.
  intros Hlt.
  destruct (tick_relay_cases cfg r m) as [(Ha & _) | (_ & Hsame)].
  - lia.
  - exact Hsame.
Qed.

(** A tick whose counter has reached the delay leaves the relay on the side
    of the classification. *)
Lemma tick_full_sets_relay cfg r m :
  settingDelayParam cfg <= currLightConditionCycles (tick cfg r m) ->
  relayOn (tick cfg r m) = newLightConditionDark cfg r.
Proof.
  intros Hfull. rewrite <- (tick_lightConditionDark cfg r m).
  destruct (tick_relay_cases cfg r m) as [(_ & _ & _ & Hon) | (Hno & Hsame)].
  - exact Hon.
  - rewrite (relayOn_same_relayState _ _ Hsame).
    destruct (bool_dec (lightConditionDark (tick cfg r m)) (relayOn m)) as [E | E].
    + symmetry. exact E.
    + exfalso. apply Hno. split; assumption.
Qed.

Lemma relay_as_in_trans m0 m1 m2 :
  relay_as_in m0 m1 -> relay_as_in m1 m2 -> relay_as_in m0 m2.
Proof. unfold relay_as_in. congruence. Qed.

Lemma Forall_relay_as_in_shift m0 m1 l :
  relay_as_in m0 m1 -> Forall (relay_as_in m1) l -> Forall (relay_as_in m0) l.
Proof.
  intros H01 Hl. eapply Forall_impl; [|exact Hl].
  intros m2 H12. eapply relay_as_in_trans; eassumption.
Qed.

Section SteadyLight.
Variable cfg : Config.
Variable d : bool.
Hypothesis delay_range : 1 <= settingDelayParam cfg <= INT16_MAX.

(** While the classification holds, the counter counts the ticks. *)
Lemma tick_steady_cycles r m :
  newLightConditionDark cfg r = d -> lightConditionDark m = d ->
  cycles_ok cfg m ->
  currLightConditionCycles (tick cfg r m) =
  Z.min (currLightConditionCycles m + 1) (settingDelayParam cfg).
Proof.
  unfold cycles_ok, INT16_MAX in *. intros Hr Hm Hc.
  rewrite tick_currLightConditionCycles, Hr, Hm, eqb_reflx.
  apply next_cycles_count. unfold CInt.INT_MIN, CInt.INT_MAX. lia.
Qed.

(** A steady window that carries the counter to the delay puts the relay
    on the side of the classification. *)
Lemma steady_run_relay w :
  forall m,
    steady cfg d w -> lightConditionDark m = d -> cycles_ok cfg m ->
    w <> [] ->
    settingDelayParam cfg <= currLightConditionCycles m + Z.of_nat (length w) ->
    relayOn (run cfg m w) = d.
Proof.
  induction w as [|r w' IH]; intros m Hw Hm Hc Hne Hlen; [contradiction|].
  apply Forall_cons_iff in Hw as [Hr Hw'].
  pose proof (tick_steady_cycles r m Hr Hm Hc) as Hcnt.
  assert (Hc1 : cycles_ok cfg (tick cfg r m)).
  { apply tick_cycles_ok; [lia | exact Hc]. }
  cbn [run]. destruct w' as [|r' w''].
  - cbn [run]. cbn in Hlen. rewrite tick_full_sets_relay; [exact Hr|].
    unfold cycles_ok in Hc. lia.
  - apply IH.
    + exact Hw'.
    + rewrite tick_lightConditionDark. exact Hr.
    + exact Hc1.
    + discriminate.
    + rewrite Hcnt. unfold cycles_ok in Hc.
      change (length (r :: r' :: w'')) with (S (length (r' :: w''))) in Hlen.
      rewrite Nat2Z.inj_succ in Hlen. lia.
Qed.

(** Once the relay is on the side of the classification, steady light
    never moves it. *)
Lemma steady_trace_keeps_relay later :
  forall m,
    steady cfg d later -> relayOn m = d ->
    Forall (relay_as_in m) (trace cfg m later).
Proof.
  induction later as [|r rest IH]; intros m Hl Hon; cbn [trace].
  - constructor.
  - apply Forall_cons_iff in Hl as [Hr Hrest].
    assert (Hkeep : relayState (tick cfg r m) = relayState m).
    { apply tick_agreeing_keeps_relay. congruence. }
    constructor; [exact Hkeep|].
    apply (Forall_relay_as_in_shift m (tick cfg r m)); [exact Hkeep|].
    apply IH; [exact Hrest|].
    rewrite (relayOn_same_relayState _ _ Hkeep). exact Hon.
Qed.
End SteadyLight.

(** C1, as the code has it.  Let both settings be in 1..100 and the counter
    of the starting state within 0..requiredStableTicks.  If the
    classification is the same over requiredStableTicks + 1 consecutive
    ticks, or over requiredStableTicks consecutive ticks that continue the
    classification already held, then at the end of the window the relay
    matches the classification (on if dark, off if bright), and no later
    tick with the same classification changes the relay. *)
Theorem stable_window_sets_relay cfg m d window later :
  valid_config cfg ->
  cycles_ok cfg m ->
  steady cfg d window ->
  steady cfg d later ->
  Z.of_nat (length window) = settingDelayParam cfg + 1 \/
  (Z.of_nat (length window) = settingDelayParam cfg /\ lightConditionDark m = d) ->
  relayOn (run cfg m window) = d /\
  Forall (relay_as_in (run cfg m window)) (trace cfg (run cfg m window) later).
Proof.
  intros Hv Hc Hw Hl Hlen.
  pose proof (valid_config_delay cfg Hv) as HN.
  assert (Hon : relayOn (run cfg m window) = d).
  { destruct Hlen as [Hlen | [Hlen Hm]].
    - destruct window as [|r w']; [cbn in Hlen; lia|].
      apply Forall_cons_iff in Hw as [Hr Hw'].
      change (length (r :: w')) with (S (length w')) in Hlen.
      rewrite Nat2Z.inj_succ in Hlen.
      cbn [run]. apply (steady_run_relay cfg d HN).
      + exact Hw'.
      + rewrite tick_lightConditionDark. exact Hr.
      + apply tick_cycles_ok; [lia | exact Hc].
      + destruct w'; [cbn in Hlen; lia | discriminate].
      + assert (Hc1 : cycles_ok cfg (tick cfg r m))
          by (apply tick_cycles_ok; [lia | exact Hc]).
        unfold cycles_ok in Hc1. lia.
    - apply (steady_run_relay cfg d HN).
      + exact Hw.
      + exact Hm.
      + exact Hc.
      + destruct window; [cbn in Hlen; lia | discriminate].
      + unfold cycles_ok in Hc. lia. }
  split; [exact Hon|].
  apply (steady_trace_keeps_relay cfg d); assumption.
Qed.

Lemma stable_window_sets_relay_witness :
  relayOn (run cfgA (setup bench) [10; 10; 10; 10]) = true /\
  Forall (relay_as_in (run cfgA (setup bench) [10; 10; 10; 10]))
         (trace cfgA (run cfgA (setup bench) [10; 10; 10; 10]) [25; 0; 7]).
Proof.
  apply (stable_window_sets_relay cfgA (setup bench) true [10; 10; 10; 10] [25; 0; 7]).
  - exact cfgA_valid.
  - unfold cycles_ok; cbn; lia.
  - repeat constructor.
  - repeat constructor.
  - left. reflexivity.
Defined.

(** C1 as the specification words it fails: after [setup] (bright, counter
    0), with delay 3, three consecutive dark ticks leave the relay off. *)
Lemma stable_window_of_delay_ticks_too_short :
  valid_config cfgA /\
  cycles_ok cfgA (setup bench) /\
  Z.of_nat (length [10; 10; 10]) = settingDelayParam cfgA /\
  steady cfgA true [10; 10; 10] /\
  relayOn (run cfgA (setup bench) [10; 10; 10]) = false.
Proof.
  split; [exact cfgA_valid|].
  split; [unfold cycles_ok; cbn; lia|].
  split; [reflexivity|].
  split; [repeat constructor | reflexivity].
Qed.

(** ** Oscillating light *)

(** C7. With a delay of at least 1, while every tick classifies unlike the
    tick before it (the first one unlike the classification held at the
    start), each tick leaves the counter at 0, below the delay, and the relay
    where it was at the start. *)
Theorem oscillation_never_switches cfg samples :
  1 <= settingDelayParam cfg ->
  forall m,
    flipsEveryTick cfg (lightConditionDark m) samples = true ->
    Forall (fun m' => relay_as_in m m' /\
                      currLightConditionCycles m' = 0 /\
                      currLightConditionCycles m' < settingDelayParam cfg)
           (trace cfg m samples).
Proof.
  intros HN. induction samples as [|r rest IH]; intros m Hflip; cbn [trace].
  - constructor.
  - cbn [flipsEveryTick] in Hflip. apply andb_prop in Hflip as [Hr Hrest].
    apply negb_true_iff in Hr.
    assert (Hzero : currLightConditionCycles (tick cfg r m) = 0).
    { rewrite tick_currLightConditionCycles, Hr. apply next_cycles_reset. lia. }
    assert (Hkeep : relayState (tick cfg r m) = relayState m).
    { apply tick_early_keeps_relay. lia. }
    constructor.
    + repeat split; [exact Hkeep | exact Hzero | lia].
    + rewrite <- (tick_lightConditionDark cfg r m) in Hrest.
      specialize (IH _ Hrest).
      eapply Forall_impl; [|exact IH].
      intros m' (Hrel & Hz & Hlt). repeat split; try assumption.
      eapply relay_as_in_trans; eassumption.
Qed.

Lemma oscillation_never_switches_witness :
  Forall (fun m' => relay_as_in (setup bench) m' /\
                    currLightConditionCycles m' = 0 /\
                    currLightConditionCycles m' < settingDelayParam (mkConfig 1 25))
         (trace (mkConfig 1 25) (setup bench) [10; 30; 25; 26; 0; 1023]).
Proof.
  apply (oscillation_never_switches (mkConfig 1 25) [10; 30; 25; 26; 0; 1023]).
  - cbn. lia.
  - reflexivity.
Defined.

(** ** The delay after a change *)

Lemma next_cycles_upper cfg same c k :
  0 <= settingDelayParam cfg ->
  CInt.INT_MIN <= c <= k -> 0 <= k ->
  CInt.INT_MIN <= next_cycles cfg same c <= k + 1.
Proof.
  intros HN Hc Hk. unfold next_cycles.
  assert (H1 : CInt.INT_MIN <= (if same then CInt.add c 1 else 0) <= k + 1).
  { destruct same.
    - unfold CInt.add. pose proof (wrap_bounds (c + 1)).
      pose proof (wrap_le (c + 1)). lia.
    - unfold CInt.INT_MIN. lia. }
  destruct (_ >? _) eqn:E.
  - apply Z.gtb_lt in E. unfold CInt.INT_MIN in *. lia.
  - exact H1.
Qed.

(** As long as fewer ticks than the delay have passed since the counter was
    at most [k], the relay stays, whatever the samples are. *)
Lemma trace_early_keeps_relay cfg rest :
  1 <= settingDelayParam cfg ->
  forall m k,
    CInt.INT_MIN <= currLightConditionCycles m <= k -> 0 <= k ->
    k + Z.of_nat (length rest) < settingDelayParam cfg ->
    Forall (relay_as_in m) (trace cfg m rest).
Proof.
  intros HN. induction rest as [|r rest' IH]; intros m k Hc Hk Hlen; cbn [trace].
  - constructor.
  - change (length (r :: rest')) with (S (length rest')) in Hlen.
    rewrite Nat2Z.inj_succ in Hlen.
    assert (Hc1 : CInt.INT_MIN <= currLightConditionCycles (tick cfg r m) <= k + 1).
    { rewrite tick_currLightConditionCycles. apply next_cycles_upper; [lia | exact Hc | exact Hk]. }
    assert (Hkeep : relayState (tick cfg r m) = relayState m).
    { apply tick_early_keeps_relay. lia. }
    constructor; [exact Hkeep|].
    apply (Forall_relay_as_in_shift m (tick cfg r m)); [exact Hkeep|].
    apply (IH _ (k + 1)); [exact Hc1 | lia | lia].
Qed.

(** C10. Let the delay be N >= 1 (an [int16_t]).  If a tick classifies its
    sample unlike the classification held before, then neither this tick nor
    any of the next N-1 ticks changes the relay, whatever they read.  When
    the new classification then holds for N further ticks, the last of them
    (its (N+1)-th consecutive tick) leaves the relay on the side of the new
    classification, so a relay that disagreed with it changes exactly there. *)
Theorem relay_waits_full_delay_after_change cfg m r rest :
  config_typed cfg ->
  1 <= settingDelayParam cfg ->
  newLightConditionDark cfg r <> lightConditionDark m ->
  (Z.of_nat (length rest) <= settingDelayParam cfg - 1 ->
     Forall (relay_as_in m) (trace cfg m (r :: rest))) /\
  (Z.of_nat (length rest) = settingDelayParam cfg ->
   steady cfg (newLightConditionDark cfg r) rest ->
     relayOn (run cfg m (r :: rest)) = newLightConditionDark cfg r /\
     (relayOn m <> newLightConditionDark cfg r ->
        relayState (run cfg m (r :: rest)) <> relayState m)).
Proof.
  intros [Ht _] HN Hchange.
  assert (Hzero : currLightConditionCycles (tick cfg r m) = 0).
  { rewrite tick_currLightConditionCycles.
    replace (Bool.eqb _ _) with false
      by (symmetry; apply eqb_false_iff; exact Hchange).
    apply next_cycles_reset. lia. }
  assert (Hkeep : relayState (tick cfg r m) = relayState m).
  { apply tick_early_keeps_relay. lia. }
  split.
  - intros Hlen. cbn [trace]. constructor; [exact Hkeep|].
    apply (Forall_relay_as_in_shift m (tick cfg r m)); [exact Hkeep|].
    apply (trace_early_keeps_relay cfg rest HN _ 0).
    + rewrite Hzero. unfold CInt.INT_MIN. lia.
    + lia.
    + lia.
  - intros Hlen Hsteady.
    assert (Hon : relayOn (run cfg m (r :: rest)) = newLightConditionDark cfg r).
    { cbn [run].
      apply (steady_run_relay cfg (newLightConditionDark cfg r)).
      - lia.
      - exact Hsteady.
      - apply tick_lightConditionDark.
      - unfold cycles_ok. rewrite Hzero. lia.
      - destruct rest; [cbn in Hlen; lia | discriminate].
      - rewrite Hzero. lia. }
    split; [exact Hon|].
    intros Hdis Heq. apply Hdis. rewrite <- Hon.
    symmetry. apply relayOn_same_relayState. exact Heq.
Qed.

Lemma relay_waits_full_delay_after_change_witness :
  Forall (relay_as_in (setup bench)) (trace cfgA (setup bench) [10; 10; 10]) /\
  relayState (run cfgA (setup bench) [10; 10; 10; 10]) <> relayState (setup bench).
Proof.
  assert (Ht : config_typed cfgA) by (unfold config_typed, INT16_MIN, INT16_MAX; cbn; lia).
  assert (HN : 1 <= settingDelayParam cfgA) by (cbn; lia).
  assert (Hch : newLightConditionDark cfgA 10 <> lightConditionDark (setup bench))
    by (cbn; discriminate).
  split.
  - apply (proj1 (relay_waits_full_delay_after_change cfgA (setup bench) 10 [10; 10] Ht HN Hch)).
    cbn. lia.
  - apply (proj2 (relay_waits_full_delay_after_change cfgA (setup bench) 10 [10; 10; 10] Ht HN Hch)).
    + reflexivity.
    + repeat constructor.
    + cbn. discriminate.
Defined.

(** ** The scenarios of the specification *)

(** C2, as the code has it.  Threshold 25, delay 3, the state [setup] leaves
    (relay off, bright, counter 0): the samples 10, 10, 10 leave the relay
    off after each of the three ticks, and a fourth dark sample turns it on
    at tick 4. *)
Theorem scenario_A_relay_on_at_tick_4 :
  forall modes levels a0,
    let m0 := setup (power_on modes levels a0) in
    relayState m0 = 0 /\ lightConditionDark m0 = false /\
    currLightConditionCycles m0 = 0 /\
    map relayState (trace cfgA m0 [10; 10; 10; 10]) = [0; 0; 0; 1] /\
    map currLightConditionCycles (trace cfgA m0 [10; 10; 10; 10]) = [0; 1; 2; 3].
Proof. intros modes levels a0. cbv zeta. repeat split. Qed.

(** C2 as the specification words it fails: after the third dark tick the
    relay is still off. *)
Lemma scenario_A_relay_off_after_tick_3 :
  relayState (setup bench) = 0 /\
  lightConditionDark (setup bench) = false /\
  currLightConditionCycles (setup bench) = 0 /\
  relayState (run cfgA (setup bench) [10; 10; 10]) = 0 /\
  relayOn (run cfgA (setup bench) [10; 10; 10]) = false.
Proof. repeat split. Qed.

(** C3, as the code has it.  Same settings and start: with the samples
    30, 10, 10, 10 the relay is off after each of the four ticks (the dark
    streak starts at tick 2 with the counter at 0), and a further dark
    sample turns it on at tick 5. *)
Theorem scenario_B_relay_on_at_tick_5 :
  forall modes levels a0,
    let m0 := setup (power_on modes levels a0) in
    relayState m0 = 0 /\ lightConditionDark m0 = false /\
    currLightConditionCycles m0 = 0 /\
    map relayState (trace cfgA m0 [30; 10; 10; 10; 10]) = [0; 0; 0; 0; 1] /\
    map currLightConditionCycles (trace cfgA m0 [30; 10; 10; 10; 10]) = [1; 0; 1; 2; 3].
Proof. intros modes levels a0. cbv zeta. repeat split. Qed.

(** C3 as the specification words it fails: after tick 4 the relay is still
    off. *)
Lemma scenario_B_relay_off_after_tick_4 :
  relayState (setup bench) = 0 /\
  lightConditionDark (setup bench) = false /\
  currLightConditionCycles (setup bench) = 0 /\
  relayState (run cfgA (setup bench) [30; 10; 10; 10]) = 0 /\
  relayOn (run cfgA (setup bench) [30; 10; 10; 10]) = false.
Proof. repeat split. Qed.

(** * Further properties of the sketch *)

(** ** The output pins *)

(** The pins after a tick, pin by pin. *)
Lemma tick_pinLevels cfg r m p :
  pinLevels (tick cfg r m) p =
  if relayState m =? 0
  then if newLightConditionDark cfg r &&
          (currLightConditionCycles (tick cfg r m) >=? settingDelayParam cfg)
       then match p with D5 => LOW | D8 => HIGH end
       else pinLevels m p
  else if negb (newLightConditionDark cfg r) &&
          (currLightConditionCycles (tick cfg r m) >=? settingDelayParam cfg)
       then match p with D5 => HIGH | D8 => LOW end
       else pinLevels m p.
Proof.
  rewrite tick_currLightConditionCycles.
  unfold tick, checkSwitchConditions; cbn [fst].
  rewrite update_relayState, update_lightConditionDark,
    update_currLightConditionCycles.
  cbn [sense set_adcA0 relayState lightConditionDark currLightConditionCycles adcA0].
  destruct (relayState m =? 0);
    match goal with |- context [if ?b then _ else _] => destruct b end;
    cbn; rewrite ?update_pinLevels; destruct p; reflexivity.
Qed.

Lemma tick_pins_mirror_relay cfg r m :
  pins_mirror_relay m -> pins_mirror_relay (tick cfg r m).
Proof.
  unfold pins_mirror_relay.
  rewrite (tick_pinLevels cfg r m D5), (tick_pinLevels cfg r m D8),
    (tick_relayState cfg r m).
  intros [(Hs & H5 & H8) | (Hs & H5 & H8)]; rewrite Hs; cbn;
    match goal with |- context [if ?b then _ else _] => destruct b end;
    tauto.
Qed.

(** X1. From [setup] on, whatever state it started from and whatever the
    sensor reads, after every tick the relay variable is 0 or 1 and the pins
    show it: 0 with D5 HIGH (relay off) and D8 LOW (LED off), 1 with D5 LOW
    and D8 HIGH. *)
Theorem pins_always_mirror_relay cfg m samples :
  pins_mirror_relay (setup m) /\
  Forall pins_mirror_relay (trace cfg (setup m) samples).
Proof.
  assert (H0 : pins_mirror_relay (setup m)) by (left; repeat split).
  split; [exact H0|].
  generalize (setup m) H0. clear H0.
  induction samples as [|r rest IH]; intros m0 Hm0; cbn [trace].
  - constructor.
  - pose proof (tick_pins_mirror_relay cfg r m0 Hm0) as H1.
    constructor; [exact H1 | apply IH; exact H1].
Qed.

(** X2. The relay commands are idempotent and the last one wins; on a state
    whose pins show the relay variable, commanding the state the relay is
    already in changes nothing a reader could observe. *)
Theorem relay_commands_idempotent m :
  same_machine (switchRelayOff (switchRelayOff m)) (switchRelayOff m) /\
  same_machine (switchRelayOn (switchRelayOn m)) (switchRelayOn m) /\
  same_machine (switchRelayOff (switchRelayOn m)) (switchRelayOff m) /\
  same_machine (switchRelayOn (switchRelayOff m)) (switchRelayOn m) /\
  (pins_mirror_relay m -> relayState m = 0 -> same_machine (switchRelayOff m) m) /\
  (pins_mirror_relay m -> relayState m = 1 -> same_machine (switchRelayOn m) m).
Proof.
  unfold same_machine, same_control, pins_mirror_relay.
  repeat split; try reflexivity; cbn; try (intros p; destruct p; reflexivity);
    try congruence.
  - intros p. destruct H as [(_ & H5 & H8) | (H1 & _)]; [|congruence].
    destruct p; cbn; congruence.
  - intros p. destruct H as [(H1 & _) | (_ & H5 & H8)]; [congruence|].
    destruct p; cbn; congruence.
Qed.

Lemma relay_commands_idempotent_witness :
  same_machine (switchRelayOff (setup bench)) (setup bench).
Proof.
  apply (proj1 (proj2 (proj2 (proj2 (proj2 (relay_commands_idempotent (setup bench))))))).
  - left. repeat split.
  - reflexivity.
Defined.

(** ** Dwell time of the relay *)

Lemma run_in_trace (P : Machine -> Prop) cfg samples :
  forall m, P m -> Forall P (trace cfg m samples) -> P (run cfg m samples).
Proof.
  induction samples as [|r rest IH]; intros m Hm Ht; cbn [run].
  - exact Hm.
  - cbn [trace] in Ht. apply Forall_cons_iff in Ht as [H1 Hrest].
    apply IH; assumption.
Qed.

(** A relay that agrees with the classification held stays for the next
    [settingDelayParam] ticks, whatever they read. *)
Lemma agreeing_relay_dwells cfg rest :
  1 <= settingDelayParam cfg ->
  forall m,
    relayOn m = lightConditionDark m ->
    Z.of_nat (length rest) <= settingDelayParam cfg ->
    Forall (relay_as_in m) (trace cfg m rest).
Proof.
  intros HN. induction rest as [|r rest' IH]; intros m Hagree Hlen; cbn [trace].
  - constructor.
  - change (length (r :: rest')) with (S (length rest')) in Hlen.
    rewrite Nat2Z.inj_succ in Hlen.
    destruct (bool_dec (newLightConditionDark cfg r) (lightConditionDark m)) as [Hsame | Hdiff].
    + assert (Hkeep : relayState (tick cfg r m) = relayState m).
      { apply tick_agreeing_keeps_relay. congruence. }
      constructor; [exact Hkeep|].
      apply (Forall_relay_as_in_shift m (tick cfg r m)); [exact Hkeep|].
      apply IH; [|lia].
      rewrite (relayOn_same_relayState _ _ Hkeep), tick_lightConditionDark.
      congruence.
    + assert (Hzero : currLightConditionCycles (tick cfg r m) = 0).
      { rewrite tick_currLightConditionCycles.
        replace (Bool.eqb _ _) with false
          by (symmetry; apply eqb_false_iff; exact Hdiff).
        apply next_cycles_reset. lia. }
      assert (Hkeep : relayState (tick cfg r m) = relayState m).
      { apply tick_early_keeps_relay. lia. }
      constructor; [exact Hkeep|].
      apply (Forall_relay_as_in_shift m (tick cfg r m)); [exact Hkeep|].
      apply (trace_early_keeps_relay cfg rest' HN _ 0).
      * rewrite Hzero. unfold CInt.INT_MIN. lia.
      * lia.
      * lia.
Qed.

(** X3. With a delay N >= 1, a tick that changes the relay is followed by at
    least N ticks that do not change it, whatever the sensor reads; and N + 1
    ticks of the opposite classification do change it back, so N is the
    exact dwell time. *)
Theorem relay_dwells_after_change cfg m r rest :
  config_typed cfg ->
  1 <= settingDelayParam cfg ->
  relayState (tick cfg r m) <> relayState m ->
  (Z.of_nat (length rest) <= settingDelayParam cfg ->
     Forall (relay_as_in (tick cfg r m)) (trace cfg (tick cfg r m) rest)) /\
  (Z.of_nat (length rest) = settingDelayParam cfg + 1 ->
   steady cfg (negb (newLightConditionDark cfg r)) rest ->
     relayState (run cfg (tick cfg r m) rest) <> relayState (tick cfg r m)).
Proof.
  intros [Ht _] HN Hchange.
  assert (Hagree : relayOn (tick cfg r m) = lightConditionDark (tick cfg r m)).
  { destruct (tick_relay_cases cfg r m) as [(_ & _ & _ & Hon) | (_ & Hsame)];
      [exact Hon | contradiction]. }
  split.
  - intros Hlen. apply agreeing_relay_dwells; assumption.
  - intros Hlen Hsteady.
    destruct rest as [|r1 rest1]; [cbn in Hlen; lia|].
    change (length (r1 :: rest1)) with (S (length rest1)) in Hlen.
    rewrite Nat2Z.inj_succ in Hlen.
    apply Forall_cons_iff in Hsteady as [Hr1 Hrest1].
    set (m1 := tick cfg r m) in *.
    assert (Hzero : currLightConditionCycles (tick cfg r1 m1) = 0).
    { rewrite tick_currLightConditionCycles, Hr1.
      unfold m1 at 1. rewrite tick_lightConditionDark.
      replace (Bool.eqb _ _) with false
        by (destruct (newLightConditionDark cfg r); reflexivity).
      apply next_cycles_reset. lia. }
    assert (Hon : relayOn (run cfg m1 (r1 :: rest1)) = negb (newLightConditionDark cfg r)).
    { cbn [run].
      apply (steady_run_relay cfg (negb (newLightConditionDark cfg r))).
      - lia.
      - exact Hrest1.
      - rewrite tick_lightConditionDark. exact Hr1.
      - unfold cycles_ok. rewrite Hzero. lia.
      - destruct rest1; [cbn in Hlen; lia | discriminate].
      - rewrite Hzero. lia. }
    intros Heq. apply relayOn_same_relayState in Heq.
    rewrite Hon, Hagree in Heq. unfold m1 in Heq.
    rewrite tick_lightConditionDark in Heq.
    destruct (newLightConditionDark cfg r); discriminate.
Qed.

Lemma relay_dwells_after_change_witness :
  Forall (relay_as_in (tick cfgA 10 (run cfgA (setup bench) [10; 10; 10])))
         (trace cfgA (tick cfgA 10 (run cfgA (setup bench) [10; 10; 10])) [30; 500; 26]) /\
  relayState (run cfgA (tick cfgA 10 (run cfgA (setup bench) [10; 10; 10])) [30; 500; 26; 99])
    <> relayState (tick cfgA 10 (run cfgA (setup bench) [10; 10; 10])).
Proof.
  assert (Ht : config_typed cfgA) by (unfold config_typed, INT16_MIN, INT16_MAX; cbn; lia).
  assert (HN : 1 <= settingDelayParam cfgA) by (cbn; lia).
  assert (Hch : relayState (tick cfgA 10 (run cfgA (setup bench) [10; 10; 10]))
                <> relayState (run cfgA (setup bench) [10; 10; 10]))
    by (vm_compute; discriminate).
  split.
  - apply (proj1 (relay_dwells_after_change cfgA _ 10 [30; 500; 26] Ht HN Hch)).
    cbn. lia.
  - apply (proj2 (relay_dwells_after_change cfgA _ 10 [30; 500; 26; 99] Ht HN Hch)).
    + reflexivity.
    + repeat constructor.
Defined.

(** X4. After every tick, from any state and with any settings: a relay that
    disagrees with the classification (off in the dark, on in the light)
    means that the counter is still below the required delay. *)
Theorem relay_disagrees_only_below_delay cfg samples :
  forall m,
    Forall (fun m' => relayOn m' <> lightConditionDark m' ->
                      currLightConditionCycles m' < settingDelayParam cfg)
           (trace cfg m samples).
Proof.
  induction samples as [|r rest IH]; intros m; cbn [trace].
  - constructor.
  - constructor; [|apply IH].
    intros Hdis.
    destruct (Z.lt_ge_cases (currLightConditionCycles (tick cfg r m))
                            (settingDelayParam cfg)) as [Hlt | Hge]; [exact Hlt|].
    exfalso. apply Hdis.
    rewrite tick_lightConditionDark. apply tick_full_sets_relay. exact Hge.
Qed.

(** ** The overflow guard *)

(** X9. With a delay setting that is a non-negative [int16_t], in every run
    that starts with the counter within 0..delay the increment of the counter
    never overflows: on the state before every tick, and on the last state,
    the [int] addition of 1 is the exact one. *)
Theorem increment_never_overflows cfg m samples :
  0 <= settingDelayParam cfg <= INT16_MAX ->
  cycles_ok cfg m ->
  Forall (fun m' => CInt.add (currLightConditionCycles m') 1
                    = currLightConditionCycles m' + 1)
         (m :: trace cfg m samples).
Proof.
  intros HN Hm.
  assert (Hall : Forall (cycles_ok cfg) (m :: trace cfg m samples)).
  { constructor; [exact Hm | apply trace_cycles_ok; assumption]. }
  eapply Forall_impl; [|exact Hall].
  intros m' Hm'. apply add_one_exact.
  unfold cycles_ok, INT16_MAX, CInt.INT_MIN, CInt.INT_MAX in *. lia.
Qed.

Lemma increment_never_overflows_witness :
  Forall (fun m' => CInt.add (currLightConditionCycles m') 1
                    = currLightConditionCycles m' + 1)
         (setup bench :: trace cfgA (setup bench) [10; 10; 10; 10; 10; 10]).
Proof.
  apply (increment_never_overflows cfgA (setup bench) [10; 10; 10; 10; 10; 10]).
  - unfold INT16_MAX; cbn; lia.
  - unfold cycles_ok; cbn; lia.
Defined.

(** ** Only the classification of a sample matters *)

Lemma tick_same_control cfg r1 r2 m1 m2 :
  same_control m1 m2 ->
  newLightConditionDark cfg r1 = newLightConditionDark cfg r2 ->
  same_control (tick cfg r1 m1) (tick cfg r2 m2).
Proof.
  intros (Hrel & Hdark & Hcyc & Hmodes & Hlevels & Htasks) Hclass.
  assert (Hc' : currLightConditionCycles (tick cfg r1 m1)
                = currLightConditionCycles (tick cfg r2 m2)).
  { rewrite !tick_currLightConditionCycles. congruence. }
  unfold same_control. repeat split.
  - rewrite (tick_relayState cfg r1 m1), (tick_relayState cfg r2 m2).
    rewrite Hc', Hclass, Hrel. reflexivity.
  - rewrite !tick_lightConditionDark. exact Hclass.
  - exact Hc'.
  - intros p. rewrite !tick_pinModes. apply Hmodes.
  - intros p. rewrite (tick_pinLevels cfg r1 m1), (tick_pinLevels cfg r2 m2).
    rewrite Hc', Hclass, Hrel, (Hlevels p). reflexivity.
  - rewrite !tick_timerTasks. exact Htasks.
Qed.

(** X5. The controller uses a sample only through its classification: two
    runs whose samples classify alike tick by tick, started from states that
    agree on relay, classification, counter, pins and timer (but maybe not
    on the stored raw level), end in states that agree on all of these. *)
Theorem run_depends_on_classification_only cfg samples1 :
  forall samples2 m1 m2,
    same_control m1 m2 ->
    Forall2 (fun r1 r2 => newLightConditionDark cfg r1 = newLightConditionDark cfg r2)
            samples1 samples2 ->
    same_control (run cfg m1 samples1) (run cfg m2 samples2).
Proof.
  induction samples1 as [|r1 rest1 IH]; intros samples2 m1 m2 Hm H2.
  - inversion H2; subst. exact Hm.
  - inversion H2 as [|? r2 ? rest2 Hr Hrest]; subst. cbn [run].
    apply IH; [|exact Hrest].
    apply tick_same_control; assumption.
Qed.

Lemma run_depends_on_classification_only_witness :
  same_control (run cfgA (setup bench) [10; 20; 30; 0; 1; 2; 3])
               (run cfgA (set_lightLevel 5 (setup bench)) [25; 0; 1023; 25; 24; 23; 22]).
Proof.
  apply (run_depends_on_classification_only cfgA [10; 20; 30; 0; 1; 2; 3]).
  - repeat split.
  - repeat constructor.
Defined.

(** ** The periodic task *)

Lemma timer_tick_due_no_task cfg m :
  timerTasks m = [] -> timer_tick_due cfg m = m.
Proof.
  intros Hno. unfold timer_tick_due. rewrite Hno. cbn [run_due_tasks].
  rewrite <- Hno. apply set_timerTasks_same.
Qed.

Lemma last_cons_default (x : Z) l d d' : last (x :: l) d = last (x :: l) d'.
Proof.
  revert x. induction l as [|y l IH]; intros x; [reflexivity|].
  change (last (y :: l) d = last (y :: l) d'). apply IH.
Qed.

(** X6. The callback always answers "keep running", so the task that [setup]
    registers is never dropped: on the freshly started chip every firing of
    the timer after [setup] is exactly one tick of the controller, for any
    number of firings.  Before [setup] no task is registered and a firing
    changes nothing but the sample on the converter. *)
Theorem timer_runs_one_tick_per_firing cfg modes levels a0 samples :
  run_timer cfg (setup (power_on modes levels a0)) samples
    = run cfg (setup (power_on modes levels a0)) samples /\
  run_timer cfg (power_on modes levels a0) samples
    = power_on modes levels (last samples a0).
Proof.
  split.
  - change (setup (power_on modes levels a0))
      with (run cfg (setup (power_on modes levels a0)) []) at 1.
    change samples with ([] ++ samples) at 2.
    generalize (@nil Z) as done.
    induction samples as [|r rest IH]; intros done; cbn [run_timer].
    + rewrite app_nil_r. reflexivity.
    + rewrite (timer_tick_due_is_tick cfg modes levels a0 done r).
      replace (tick cfg r (run cfg (setup (power_on modes levels a0)) done))
        with (run cfg (setup (power_on modes levels a0)) (done ++ [r])).
      * rewrite IH, <- app_assoc. reflexivity.
      * clear IH. generalize (setup (power_on modes levels a0)).
        induction done as [|x done' IHd]; intros m0; cbn; [reflexivity | apply IHd].
  - revert a0. induction samples as [|r rest IH]; intros a0; cbn [run_timer].
    + reflexivity.
    + rewrite timer_tick_due_no_task by reflexivity.
      change (sense r (power_on modes levels a0)) with (power_on modes levels r).
      rewrite IH. destruct rest as [|z rest']; [reflexivity|].
      rewrite (last_cons_default z rest' r a0). reflexivity.
Qed.

(** ** The counter as the length of a streak *)

Lemma tick_streak cfg r m d past :
  0 <= settingDelayParam cfg <= INT16_MAX ->
  lightConditionDark m = d ->
  currLightConditionCycles m
    = Z.min (settingDelayParam cfg) (Z.of_nat (streak d past)) ->
  currLightConditionCycles (tick cfg r m)
    = Z.min (settingDelayParam cfg)
            (Z.of_nat (streak (newLightConditionDark cfg r) (d :: past))).
Proof.
  unfold INT16_MAX. intros HN Hd Hc.
  rewrite tick_currLightConditionCycles, Hd. cbn [streak].
  destruct (Bool.eqb (newLightConditionDark cfg r) d) eqn:E.
  - apply eqb_prop in E. rewrite E, eqb_reflx.
    rewrite next_cycles_count by (unfold CInt.INT_MIN, CInt.INT_MAX; lia).
    rewrite Nat2Z.inj_succ. lia.
  - replace (Bool.eqb d (newLightConditionDark cfg r)) with false
      by (revert E; destruct d, (newLightConditionDark cfg r); cbn; congruence).
    rewrite next_cycles_reset by lia. cbn. lia.
Qed.

(** X7. With a delay setting that is a non-negative [int16_t], at any moment
    of a run from the freshly started chip the classification held is the
    latest one, and the counter is the number of ticks immediately before the
    latest one that classified like it (before the first tick stands the
    initial "bright"), cut down to the delay. *)
Theorem counter_is_streak cfg modes levels a0 samples :
  0 <= settingDelayParam cfg <= INT16_MAX ->
  lightConditionDark (run cfg (setup (power_on modes levels a0)) samples)
    = hd false (history cfg samples) /\
  currLightConditionCycles (run cfg (setup (power_on modes levels a0)) samples)
    = Z.min (settingDelayParam cfg)
            (Z.of_nat (streak (hd false (history cfg samples))
                              (tl (history cfg samples)))).
Proof.
  intros HN. unfold history.
  assert (Hgen : forall samples m d past,
             lightConditionDark m = d ->
             currLightConditionCycles m
               = Z.min (settingDelayParam cfg) (Z.of_nat (streak d past)) ->
             let h := rev (map (newLightConditionDark cfg) samples) ++ d :: past in
             lightConditionDark (run cfg m samples) = hd false h /\
             currLightConditionCycles (run cfg m samples)
               = Z.min (settingDelayParam cfg) (Z.of_nat (streak (hd false h) (tl h)))).
  { clear samples. induction samples as [|r rest IH]; intros m d past Hd Hc; cbv zeta.
    - cbn. split; assumption.
    - cbn [run map rev]. rewrite <- app_assoc. cbn [app].
      apply (IH (tick cfg r m) (newLightConditionDark cfg r) (d :: past)).
      + apply tick_lightConditionDark.
      + apply tick_streak; assumption. }
  apply (Hgen samples (setup (power_on modes levels a0)) false []).
  - reflexivity.
  - cbn. lia.
Qed.

Lemma counter_is_streak_witness :
  lightConditionDark (run cfgA (setup bench) [30; 10; 10]) = true /\
  currLightConditionCycles (run cfgA (setup bench) [30; 10; 10]) = 1.
Proof.
  apply (counter_is_streak cfgA (fun _ => INPUT) (fun _ => LOW) 1023 [30; 10; 10]).
  unfold INT16_MAX; cbn; lia.
Defined.

(** ** Steady light from start-up *)

(** X8. With a delay N (1 <= N, an [int16_t]), when every sample since
    start-up classifies the same way, the relay after k ticks is on exactly
    when the light is dark and k > N: in steady daylight the lamp never comes
    on, and in steady darkness it comes on at tick N + 1 and stays on. *)
Theorem steady_light_from_start cfg modes levels a0 d samples :
  1 <= settingDelayParam cfg <= INT16_MAX ->
  steady cfg d samples ->
  relayOn (run cfg (setup (power_on modes levels a0)) samples)
    = d && (settingDelayParam cfg <? Z.of_nat (length samples)).
Proof.
  intros HN Hsteady. set (m0 := setup (power_on modes levels a0)).
  destruct d.
  - destruct samples as [|r rest].
    { replace (settingDelayParam cfg <? Z.of_nat (length (@nil Z))) with false
        by (symmetry; apply Z.ltb_ge; cbn; lia).
      reflexivity. }
    apply Forall_cons_iff in Hsteady as [Hr Hrest].
    change (length (r :: rest)) with (S (length rest)).
    rewrite Nat2Z.inj_succ. cbn [andb].
    assert (Hzero : currLightConditionCycles (tick cfg r m0) = 0).
    { rewrite tick_currLightConditionCycles, Hr. apply next_cycles_reset. lia. }
    destruct (settingDelayParam cfg <? Z.succ (Z.of_nat (length rest))) eqn:E.
    + apply Z.ltb_lt in E. cbn [run].
      apply (steady_run_relay cfg true HN).
      * exact Hrest.
      * rewrite tick_lightConditionDark. exact Hr.
      * unfold cycles_ok. rewrite Hzero. lia.
      * destruct rest; [cbn in E; lia | discriminate].
      * rewrite Hzero. lia.
    + apply Z.ltb_ge in E.
      assert (Hkeep : relayState (run cfg m0 (r :: rest)) = relayState m0).
      { apply (run_in_trace (relay_as_in m0)); [reflexivity|].
        cbn [trace].
        assert (H1 : relayState (tick cfg r m0) = relayState m0)
          by (apply tick_early_keeps_relay; lia).
        constructor; [exact H1|].
        apply (Forall_relay_as_in_shift m0 (tick cfg r m0)); [exact H1|].
        apply (trace_early_keeps_relay cfg rest (proj1 HN) _ 0).
        - rewrite Hzero. unfold CInt.INT_MIN. lia.
        - lia.
        - lia. }
      rewrite (relayOn_same_relayState _ _ Hkeep). reflexivity.
  - cbn [andb].
    assert (Hkeep : relayState (run cfg m0 samples) = relayState m0).
    { apply (run_in_trace (relay_as_in m0)); [reflexivity|].
      apply (steady_trace_keeps_relay cfg false); [exact Hsteady | reflexivity]. }
    rewrite (relayOn_same_relayState _ _ Hkeep). reflexivity.
Qed.

Lemma steady_light_from_start_witness :
  relayOn (run cfgA (setup bench) [10; 10; 10; 10; 10]) = true /\
  relayOn (run cfgA (setup bench) [10; 10; 10]) = false /\
  relayOn (run cfgA (setup bench) [26; 26; 26; 26; 26]) = false.
Proof.
  assert (HN : 1 <= settingDelayParam cfgA <= INT16_MAX) by (unfold INT16_MAX; cbn; lia).
  split; [|split].
  - apply (steady_light_from_start cfgA _ _ _ true [10; 10; 10; 10; 10] HN).
    repeat constructor.
  - apply (steady_light_from_start cfgA _ _ _ true [10; 10; 10] HN).
    repeat constructor.
  - apply (steady_light_from_start cfgA _ _ _ false [26; 26; 26; 26; 26] HN).
    repeat constructor.
Defined.

(** ** How often the relay can switch *)

Section Chatter.
Variable cfg : Config.
Hypothesis delay_range : 1 <= settingDelayParam cfg <= INT16_MAX.

Lemma ticks_to_switch_bounds m :
  cycles_ok cfg m -> 1 <= ticks_to_switch cfg m <= settingDelayParam cfg + 1.
Proof.
  unfold cycles_ok, ticks_to_switch. intros Hc.
  destruct (Bool.eqb _ _); lia.
Qed.

(** A tick that switches the relay had no waiting left, and a full wait
    follows it. *)
Lemma ticks_to_switch_at_change r m :
  cycles_ok cfg m ->
  relayState (tick cfg r m) <> relayState m ->
  ticks_to_switch cfg m <= 1 /\
  ticks_to_switch cfg (tick cfg r m) = settingDelayParam cfg + 1.
Proof.
  unfold cycles_ok, INT16_MAX in *. intros Hc Hchange.
  destruct (tick_relay_cases cfg r m) as [(Ha & Hd & _ & Hon) | (_ & Hsame)];
    [|contradiction].
  split.
  - unfold ticks_to_switch.
    rewrite tick_currLightConditionCycles in Ha.
    rewrite tick_lightConditionDark in Hd.
    destruct (Bool.eqb (newLightConditionDark cfg r) (lightConditionDark m)) eqn:E.
    + rewrite next_cycles_count in Ha by (unfold CInt.INT_MIN, CInt.INT_MAX; lia).
      apply eqb_prop in E.
      replace (Bool.eqb (relayOn m) (lightConditionDark m)) with false
        by (symmetry; apply eqb_false_iff; congruence).
      lia.
    + rewrite next_cycles_reset in Ha by lia. lia.
  - unfold ticks_to_switch. rewrite Hon, eqb_reflx. reflexivity.
Qed.

(** A tick that leaves the relay takes at most one tick off the wait. *)
Lemma ticks_to_switch_no_change r m :
  cycles_ok cfg m ->
  relayState (tick cfg r m) = relayState m ->
  ticks_to_switch cfg m <= ticks_to_switch cfg (tick cfg r m) + 1.
Proof.
  unfold INT16_MAX in *. intros Hc Hsame.
  assert (Hc1 : cycles_ok cfg (tick cfg r m))
    by (apply tick_cycles_ok; [unfold INT16_MAX; lia | exact Hc]).
  pose proof (ticks_to_switch_bounds m Hc) as Hb.
  pose proof (ticks_to_switch_bounds _ Hc1) as Hb1.
  unfold ticks_to_switch in *.
  rewrite (relayOn_same_relayState _ _ Hsame) in *.
  rewrite tick_lightConditionDark in *.
  unfold cycles_ok in Hc, Hc1.
  destruct (Bool.eqb (relayOn m) (newLightConditionDark cfg r)) eqn:Ea1;
    destruct (Bool.eqb (relayOn m) (lightConditionDark m)) eqn:Ea; try lia.
  - (* agreed before, disagrees now: the classification changed *)
    apply eqb_prop in Ea. apply eqb_false_iff in Ea1.
    rewrite tick_currLightConditionCycles.
    replace (Bool.eqb _ _) with false
      by (symmetry; apply eqb_false_iff; congruence).
    rewrite next_cycles_reset by lia. lia.
  - (* disagrees before and after: the classification held, the counter grew *)
    apply eqb_false_iff in Ea, Ea1.
    assert (Hclass : newLightConditionDark cfg r = lightConditionDark m).
    { destruct (newLightConditionDark cfg r), (lightConditionDark m), (relayOn m);
        congruence. }
    assert (Hlt : currLightConditionCycles (tick cfg r m) < settingDelayParam cfg).
    { destruct (Z.lt_ge_cases (currLightConditionCycles (tick cfg r m))
                              (settingDelayParam cfg)) as [Hlt | Hge]; [exact Hlt|].
      exfalso. apply Ea1.
      rewrite <- (relayOn_same_relayState _ _ Hsame).
      apply tick_full_sets_relay. exact Hge. }
    rewrite tick_currLightConditionCycles, Hclass, eqb_reflx in *.
    rewrite next_cycles_count in * by (unfold CInt.INT_MIN, CInt.INT_MAX; lia).
    lia.
Qed.

Lemma relay_changes_potential samples :
  forall m,
    cycles_ok cfg m ->
    (settingDelayParam cfg + 1) * Z.of_nat (relay_changes cfg m samples)
      + ticks_to_switch cfg m
    <= Z.of_nat (length samples) + settingDelayParam cfg + 1.
Proof.
  induction samples as [|r rest IH]; intros m Hc.
  - pose proof (ticks_to_switch_bounds m Hc). cbn. lia.
  - assert (Hc1 : cycles_ok cfg (tick cfg r m))
      by (apply tick_cycles_ok; [lia | exact Hc]).
    specialize (IH _ Hc1).
    cbn [relay_changes length]. rewrite Nat2Z.inj_succ.
    destruct (relayState (tick cfg r m) =? relayState m) eqn:E.
    + apply Z.eqb_eq in E.
      pose proof (ticks_to_switch_no_change r m Hc E).
      cbn [Nat.add]. lia.
    + apply Z.eqb_neq in E.
      destruct (ticks_to_switch_at_change r m Hc E) as [H1 H2].
      rewrite H2 in IH.
      change (1 + relay_changes cfg (tick cfg r m) rest)%nat
        with (S (relay_changes cfg (tick cfg r m) rest)).
      rewrite Nat2Z.inj_succ, Z.mul_succ_r. lia.
Qed.
End Chatter.

(** X10. With a delay N (1 <= N, an [int16_t]) and a starting counter within
    0..N, the relay switches at most (k + N) / (N + 1) times in any k ticks,
    whatever the sensor reads; from a state whose relay agrees with the
    classification held (as after [setup]) at most k / (N + 1) times. *)
Theorem relay_changes_bounded cfg m samples :
  1 <= settingDelayParam cfg <= INT16_MAX ->
  cycles_ok cfg m ->
  (settingDelayParam cfg + 1) * Z.of_nat (relay_changes cfg m samples)
    <= Z.of_nat (length samples) + settingDelayParam cfg /\
  (relayOn m = lightConditionDark m ->
   (settingDelayParam cfg + 1) * Z.of_nat (relay_changes cfg m samples)
     <= Z.of_nat (length samples)).
Proof.
  intros HN Hc.
  pose proof (relay_changes_potential cfg HN samples m Hc) as Hpot.
  pose proof (ticks_to_switch_bounds cfg HN m Hc) as Hb.
  split; [lia|].
  intros Hagree. unfold ticks_to_switch in Hpot.
  rewrite Hagree, eqb_reflx in Hpot. lia.
Qed.

Lemma relay_changes_bounded_witness :
  (settingDelayParam cfgA + 1)
    * Z.of_nat (relay_changes cfgA (setup bench)
                  [10; 10; 10; 10; 30; 30; 30; 30; 10; 30; 10; 10])
  <= Z.of_nat (length [10; 10; 10; 10; 30; 30; 30; 30; 10; 30; 10; 10]).
Proof.
  assert (HN : 1 <= settingDelayParam cfgA <= INT16_MAX) by (unfold INT16_MAX; cbn; lia).
  assert (Hc : cycles_ok cfgA (setup bench)) by (unfold cycles_ok; cbn; lia).
  apply (proj2 (relay_changes_bounded cfgA (setup bench)
                  [10; 10; 10; 10; 30; 30; 30; 30; 10; 30; 10; 10] HN Hc)).
  reflexivity.
Defined.
